(** * Message encoder of expo-symbol-sdk: [src/service/message.ts]

    A shallow embedding of [MessageEncoder] (encode, tryDecode and their
    deprecated wallet variants) together with the helpers [utf8ArrayToString]
    and [filterExceptions], followed by the properties stated about them.

    Conventions of the embedding:
    - a [Uint8Array] is a [list byte];
    - a JavaScript string is the list of its UTF-16 code units ([list N]);
    - a call that may throw returns a [result]: [Ok v] or [Throw e], where [e]
      is the [message] of the thrown [Error];
    - a parameter typed [Uint8Array | string] is the sum [BytesOrString];
    - [arr[0]] on a typed array is [nth_error arr 0]: [None] is [undefined]. *)

From Stdlib Require Import List Arith NArith Bool Lia String Ascii.
From Stdlib.Strings Require Import Byte.
Import ListNotations.
Local Open Scope N_scope.

(** ** Values *)

Definition Uint8Array := list byte.
Definition jsstring := list N.
Definition Error := jsstring.

(** A string literal of the source, as code units. *)
Definition str (s : string) : jsstring :=
  map N_of_ascii (list_ascii_of_string s).

Inductive result (A : Type) : Type :=
| Ok (a : A)
| Throw (e : Error).
Arguments Ok {A} a.
Arguments Throw {A} e.

Definition bind {A B : Type} (m : result A) (k : A -> result B) : result B :=
  match m with
  | Ok a => k a
  | Throw e => Throw e
  end.

Notation "x <- m ;; k" := (bind m (fun x => k))
  (at level 61, m at next level, right associativity).

Inductive BytesOrString : Type :=
| U8 (bytes : Uint8Array)
| Str (text : jsstring).

(** [Uint8Array.prototype.subarray(begin)]. *)
Definition subarray (begin : nat) (a : Uint8Array) : Uint8Array := skipn begin a.

(** The byte stored by a typed-array write of a number (reduced modulo 256). *)
Definition byte_of_N (n : N) : byte :=
  match Byte.of_N (n mod 256) with
  | Some b => b
  | None => x00
  end.

(** ** [util/converter]: [Convert] *)

Module Convert.

(** Modelled from the spec: the [InvalidKeyFormat] condition of malformed hex
    input. *)
Definition InvalidKeyFormat : Error := str "InvalidKeyFormat".

(** Modelled from the spec: [util/converter] is not part of the sources at
    hand.  A hex digit is one of 0-9, a-f, A-F. *)
Definition charToNibble (c : N) : option N :=
  if (48 <=? c) && (c <=? 57) then Some (c - 48)
  else if (65 <=? c) && (c <=? 70) then Some (c - 55)
  else if (97 <=? c) && (c <=? 102) then Some (c - 87)
  else None.

(** Modelled from the spec: the byte written by two hex digits. *)
Definition tryParseByte (c1 c2 : N) : option byte :=
  match charToNibble c1, charToNibble c2 with
  | Some hi, Some lo => Byte.of_N (hi * 16 + lo)
  | _, _ => None
  end.

(** Modelled from the spec: [Convert.hexToUint8], hex text to raw bytes;
    malformed text (odd length, or a character that is no hex digit) fails
    with the [InvalidKeyFormat] condition. *)
Fixpoint hexToUint8 (input : jsstring) : result Uint8Array :=
  match input with
  | [] => Ok []
  | [_] => Throw InvalidKeyFormat
  | c1 :: c2 :: rest =>
      match tryParseByte c1 c2 with
      | Some b => bytes <- hexToUint8 rest ;; Ok (b :: bytes)
      | None => Throw InvalidKeyFormat
      end
  end.

(** Modelled from the spec: [Convert.isHexString], "every character in
    0-9a-fA-F, even length". *)
Fixpoint isHexString (input : jsstring) : bool :=
  match input with
  | [] => true
  | [_] => false
  | c1 :: c2 :: rest =>
      match tryParseByte c1 c2 with
      | Some _ => isHexString rest
      | None => false
      end
  end.

(** Modelled from the spec: the hex digit of a value below 16. *)
Definition nibbleToChar (n : N) : N :=
  if n <? 10 then 48 + n else 55 + n.

(** Modelled from the spec: [Convert.uint8ToHex], raw bytes to hex text, two
    digits per byte (upper case, as the Symbol converters print them). *)
Definition uint8ToHex (input : Uint8Array) : jsstring :=
  flat_map (fun b => [nibbleToChar (Byte.to_N b / 16);
                      nibbleToChar (Byte.to_N b mod 16)]) input.

(** Modelled from the spec: UTF-16 code units to code points, for the UTF-8
    encoding of text.  A surrogate pair is one code point, a
    lone surrogate is replaced by U+FFFD. *)
Fixpoint codePoints (s : jsstring) : list N :=
  match s with
  | [] => []
  | c :: rest =>
      if (0xD800 <=? c) && (c <=? 0xDBFF) then
        match rest with
        | d :: rest' =>
            if (0xDC00 <=? d) && (d <=? 0xDFFF)
            then (0x10000 + (c - 0xD800) * 1024 + (d - 0xDC00)) :: codePoints rest'
            else 0xFFFD :: codePoints rest
        | [] => [0xFFFD]
        end
      else if (0xDC00 <=? c) && (c <=? 0xDFFF) then 0xFFFD :: codePoints rest
      else c :: codePoints rest
  end.

(** Modelled from the spec: the UTF-8 bytes of one code point. *)
Definition utf8EncodeCodePoint (cp : N) : list N :=
  if cp <? 0x80 then [cp]
  else if cp <? 0x800 then [0xC0 + cp / 64; 0x80 + cp mod 64]
  else if cp <? 0x10000 then
    [0xE0 + cp / 4096; 0x80 + (cp / 64) mod 64; 0x80 + cp mod 64]
  else
    [0xF0 + (cp / 262144) mod 8; 0x80 + (cp / 4096) mod 64;
     0x80 + (cp / 64) mod 64; 0x80 + cp mod 64].

(** Modelled from the spec: [Convert.utf8ToUint8], the UTF-8 encoding of a
    text message. *)
Definition utf8ToUint8 (input : jsstring) : Uint8Array :=
  map byte_of_N (flat_map utf8EncodeCodePoint (codePoints input)).

End Convert.

(** ** [service/message.ts] *)

(** [utf8ArrayToString]: one [String.fromCharCode] per element, appended in
    index order. *)
Definition utf8ArrayToString (uint8Array : Uint8Array) : jsstring :=
  fold_left (fun string b => string ++ [Byte.to_N b]) uint8Array [].

(** [String.prototype.includes]. *)
Fixpoint startsWith (s search : jsstring) : bool :=
  match search, s with
  | [], _ => true
  | _ :: _, [] => false
  | c :: search', d :: s' => (c =? d) && startsWith s' search'
  end.

Fixpoint includes (s search : jsstring) : bool :=
  startsWith s search ||
  match s with
  | [] => false
  | _ :: s' => includes s' search
  end.

(** Reading a result that is [undefined] where a typed array was expected. *)
Definition TypeError : Error := str "TypeError".

(** [filterExceptions]: runs [statement]; an exception whose message includes
    one of [exceptions] is caught and reported as [[false, undefined]], any
    other one is thrown again. *)
Definition filterExceptions (statement : unit -> result Uint8Array)
    (exceptions : list jsstring) : result (bool * option Uint8Array) :=
  match statement tt with
  | Ok message => Ok (true, Some message)
  | Throw exception =>
      if negb (existsb (fun exceptionMessage => includes exception exceptionMessage)
                 exceptions)
      then Throw exception
      else Ok (false, None)
  end.

(** [TryDecodeResult] of [model/message]: [message] is text when [isDecoded],
    the encoded bytes otherwise. *)
Record TryDecodeResult : Type := {
  isDecoded : bool;
  message : BytesOrString
}.

(** What [encodeAesGcm] returns: three hex texts. *)
Record AesGcmEncoded : Type := {
  tag : jsstring;
  initializationVector : jsstring;
  cipherText : jsstring
}.

Definition SharedKeyDeriver : Type :=
  Uint8Array -> Uint8Array -> result Uint8Array.

(** The random bytes [encodeAesGcm] draws for the initialization vector. *)
Definition Entropy : Type := Uint8Array.

Definition AesGcmEncoder : Type :=
  SharedKeyDeriver -> Uint8Array -> Uint8Array -> Uint8Array -> Entropy ->
  result AesGcmEncoded.

Definition AesGcmDecoder : Type :=
  SharedKeyDeriver -> Uint8Array -> Uint8Array -> Uint8Array -> result Uint8Array.

Record MessageEncoder : Type := { _privateKey : Uint8Array }.

(** [typeof x === 'string' ? Convert.hexToUint8(x) : x]. *)
Definition toUint8 (x : BytesOrString) : result Uint8Array :=
  match x with
  | Str text => Convert.hexToUint8 text
  | U8 bytes => Ok bytes
  end.

(** [typeof message === 'string' ? Convert.utf8ToUint8(message) : message]. *)
Definition messageBytes (message : BytesOrString) : Uint8Array :=
  match message with
  | Str text => Convert.utf8ToUint8 text
  | U8 bytes => bytes
  end.

(** [1 === encodedMessage[0]]. *)
Definition markerIsOne (encodedMessage : Uint8Array) : bool :=
  match nth_error encodedMessage 0 with
  | Some b => Byte.eqb b x01
  | None => false
  end.

Definition AuthenticationFailure : jsstring :=
  str "Unsupported state or unable to authenticate data".
Definition InvalidPoint : jsstring := str "invalid point".

Section MessageEncoder.

(** [deriveSharedKey] of [util/sharedKey] and [encodeAesGcm], [decodeAesGcm] of
    [util/cipherHelpers] are imported by the module and are parameters here.
    The random bytes [encodeAesGcm] draws are an explicit argument, so that
    one call of [encode] can be told from the next. *)
Variable deriveSharedKey : SharedKeyDeriver.
Variable encodeAesGcm : AesGcmEncoder.
Variable decodeAesGcm : AesGcmDecoder.

Definition newMessageEncoder (privateKey : BytesOrString) : result MessageEncoder :=
  key <- toUint8 privateKey ;; Ok {| _privateKey := key |}.

Definition tryDecode (this : MessageEncoder)
    (senderPublicKey encodedMessage : BytesOrString) : result TryDecodeResult :=
  senderPublicKey <- toUint8 senderPublicKey ;;
  encodedMessage <- toUint8 encodedMessage ;;
  let notDecoded := Ok {| isDecoded := false; message := U8 encodedMessage |} in
  if markerIsOne encodedMessage then
    r <- filterExceptions
           (fun _ => decodeAesGcm deriveSharedKey (_privateKey this)
                       senderPublicKey (subarray 1 encodedMessage))
           [AuthenticationFailure; InvalidPoint] ;;
    match r with
    | (true, Some message) =>
        Ok {| isDecoded := true; message := Str (utf8ArrayToString message) |}
    | (true, None) => Throw TypeError
    | (false, _) => notDecoded
    end
  else notDecoded.

Definition encode (this : MessageEncoder) (recipientPublicKey message : BytesOrString)
    (entropy : Entropy) : result Uint8Array :=
  recipientPublicKey <- toUint8 recipientPublicKey ;;
  let message := messageBytes message in
  enc <- encodeAesGcm deriveSharedKey (_privateKey this) recipientPublicKey
           message entropy ;;
  Convert.hexToUint8
    (str "01" ++ tag enc ++ initializationVector enc ++ cipherText enc).

Definition encodeDeprecated (this : MessageEncoder)
    (recipientPublicKey message : BytesOrString) (entropy : Entropy)
    : result Uint8Array :=
  encoded <- encode this recipientPublicKey message entropy ;;
  let encodedHexString := Convert.uint8ToHex (subarray 1 encoded) in
  encodedHexStringBytes <- Convert.hexToUint8 encodedHexString ;;
  Ok (x01 :: encodedHexStringBytes).

Definition tryDecodeDeprecated (this : MessageEncoder)
    (senderPublicKey encodedMessage : BytesOrString) : result TryDecodeResult :=
  senderPublicKey <- toUint8 senderPublicKey ;;
  encodedMessage <- toUint8 encodedMessage ;;
  let encodedHexString := Convert.uint8ToHex (subarray 1 encodedMessage) in
  if markerIsOne encodedMessage && Convert.isHexString encodedHexString then
    bytes <- Convert.hexToUint8 encodedHexString ;;
    tryDecode this (U8 senderPublicKey) (U8 (x01 :: bytes))
  else tryDecode this (U8 senderPublicKey) (U8 encodedMessage).

End MessageEncoder.

(** ** A stand-in for the cipher helpers

    Small executable definitions with the interface of [deriveSharedKey],
    [encodeAesGcm] and [decodeAesGcm], used to run the encoder on concrete
    inputs.  They are not a cipher: the tag is a 16-byte digest of the shared
    key, the initialization vector is 12 bytes of the entropy and the cipher
    text is the message reversed. *)

Fixpoint bytes_eqb (a b : Uint8Array) : bool :=
  match a, b with
  | [], [] => true
  | x :: a', y :: b' => Byte.eqb x y && bytes_eqb a' b'
  | _, _ => false
  end.

Definition pad (n : nat) (a : Uint8Array) : Uint8Array :=
  firstn n (a ++ repeat x00 n).

Definition demoDeriveSharedKey : SharedKeyDeriver :=
  fun privateKey publicKey =>
    match publicKey with
    | [] => Throw InvalidPoint
    | _ :: _ => Ok (privateKey ++ publicKey)
    end.

Definition demoTag (sharedKey : Uint8Array) : Uint8Array := pad 16 sharedKey.

Definition demoEncodeAesGcm : AesGcmEncoder :=
  fun deriveSharedKey privateKey publicKey message entropy =>
    sharedKey <- deriveSharedKey privateKey publicKey ;;
    Ok {| tag := Convert.uint8ToHex (demoTag sharedKey);
          initializationVector := Convert.uint8ToHex (pad 12 entropy);
          cipherText := Convert.uint8ToHex (rev message) |}.

Definition demoDecodeAesGcm : AesGcmDecoder :=
  fun deriveSharedKey privateKey publicKey encodedMessage =>
    sharedKey <- deriveSharedKey privateKey publicKey ;;
    if (List.length encodedMessage <? 28)%nat then Throw AuthenticationFailure
    else if bytes_eqb (firstn 16 encodedMessage) (demoTag sharedKey)
    then Ok (rev (skipn 28 encodedMessage))
    else Throw AuthenticationFailure.

(** Helpers that fail with a condition [tryDecode] does not recognise. *)
Definition OutOfMemory : Error := str "out of memory".
Definition brokenDeriveSharedKey : SharedKeyDeriver :=
  fun _ _ => Throw OutOfMemory.
Definition brokenDecodeAesGcm : AesGcmDecoder :=
  fun _ _ _ _ => Throw OutOfMemory.

Definition alice : MessageEncoder := {| _privateKey := [xa1; xa1; xa1; xa1] |}.
Definition bobPublicKey : Uint8Array := [xb2; xb2; xb2; xb2].
Definition hello : jsstring := str "hello".

(** An envelope of the stand-in for the two bytes C3 A9. *)
Definition accentEnvelope : Uint8Array :=
  x01 :: demoTag (_privateKey alice ++ bobPublicKey) ++ pad 12 []
      ++ rev [xc3; xa9].

(** ** Notions used in the statements *)

(** The text a message stands for: text is itself, raw bytes are read one
    character per byte. *)
Definition asText (message : BytesOrString) : jsstring :=
  match message with
  | Str text => text
  | U8 bytes => utf8ArrayToString bytes
  end.

(** Raw bytes, or text made of 7-bit characters only. *)
Definition sevenBit (message : BytesOrString) : bool :=
  match message with
  | Str text => forallb (fun c => c <? 128) text
  | U8 _ => true
  end.

(** The two failure classes [tryDecode] recognises, by the message of the
    exception. *)
Definition recognised (e : Error) : bool :=
  includes e AuthenticationFailure || includes e InvalidPoint.

(** Correctness of the AEAD pair at its interface: decrypting, with the same
    key material, the tag, initialization vector and cipher text that
    encryption returned gives the plaintext back. *)
Definition AeadCorrect (deriveSharedKey : SharedKeyDeriver)
    (encodeAesGcm : AesGcmEncoder) (decodeAesGcm : AesGcmDecoder) : Prop :=
  forall privateKey publicKey plain entropy enc payload,
    encodeAesGcm deriveSharedKey privateKey publicKey plain entropy = Ok enc ->
    Convert.hexToUint8 (tag enc ++ initializationVector enc ++ cipherText enc)
      = Ok payload ->
    decodeAesGcm deriveSharedKey privateKey publicKey payload = Ok plain.

(** [s] is the hex text of [n] bytes. *)
Definition hexOfLength (n : nat) (s : jsstring) : Prop :=
  Convert.isHexString s = true /\ List.length s = (2 * n)%nat.

(** Shape of what the AEAD primitive returns: tag and initialization vector of
    fixed lengths, cipher text as long as the plaintext. *)
Definition AeadShape (tagLen ivLen : nat) (deriveSharedKey : SharedKeyDeriver)
    (encodeAesGcm : AesGcmEncoder) : Prop :=
  forall privateKey publicKey plain entropy enc,
    encodeAesGcm deriveSharedKey privateKey publicKey plain entropy = Ok enc ->
    hexOfLength tagLen (tag enc) /\
    hexOfLength ivLen (initializationVector enc) /\
    hexOfLength (List.length plain) (cipherText enc).

(** The round trip as a statement about every message: what comes back is
    exactly the message that went in. *)
Definition RoundTripExact : Prop :=
  forall deriveSharedKey encodeAesGcm decodeAesGcm,
    AeadCorrect deriveSharedKey encodeAesGcm decodeAesGcm ->
    forall this publicKey message entropy envelope,
      encode deriveSharedKey encodeAesGcm this publicKey message entropy
        = Ok envelope ->
      tryDecode deriveSharedKey decodeAesGcm this publicKey (U8 envelope)
        = Ok {| isDecoded := true; message := Str (asText message) |}.

Definition LegacyRoundTripExact : Prop :=
  forall deriveSharedKey encodeAesGcm decodeAesGcm,
    AeadCorrect deriveSharedKey encodeAesGcm decodeAesGcm ->
    forall this publicKey message entropy envelope,
      encodeDeprecated deriveSharedKey encodeAesGcm this publicKey message entropy
        = Ok envelope ->
      tryDecodeDeprecated deriveSharedKey decodeAesGcm this publicKey (U8 envelope)
        = Ok {| isDecoded := true; message := Str (asText message) |}.

(** * Properties *)

(** ** The result monad *)

Lemma bind_Ok {A B : Type} (m : result A) (k : A -> result B) (b : B) :
  bind m k = Ok b -> exists a, m = Ok a /\ k a = Ok b.
Proof.
  destruct m as [a|e]; simpl; intros H; [eauto | discriminate].
Qed.

Ltac bind_inv H :=
  let a := fresh "a" in
  let Hm := fresh "Hm" in
  apply bind_Ok in H; destruct H as (a & Hm & H).

(** ** Hex text *)

(** Induction over a text two characters at a time, as the hex parser reads
    it. *)
Lemma pairs_ind (P : jsstring -> Prop) :
  P [] ->
  (forall c, P [c]) ->
  (forall c1 c2 rest, P rest -> P (c1 :: c2 :: rest)) ->
  forall s, P s.
Proof.
  intros Hnil Hone Hpair.
  fix IH 1.
  intros [|c1 [|c2 rest]]; [exact Hnil | apply Hone | apply Hpair, IH].
Qed.

Lemma tryParseByte_digits (b : byte) :
  Convert.tryParseByte (Convert.nibbleToChar (Byte.to_N b / 16))
                       (Convert.nibbleToChar (Byte.to_N b mod 16)) = Some b.
Proof. destruct b; reflexivity. Qed.

Lemma uint8ToHex_cons (b : byte) (bytes : Uint8Array) :
  Convert.uint8ToHex (b :: bytes)
  = Convert.nibbleToChar (Byte.to_N b / 16)
      :: Convert.nibbleToChar (Byte.to_N b mod 16) :: Convert.uint8ToHex bytes.
Proof. reflexivity. Qed.

Lemma hexToUint8_pair (c1 c2 : N) (rest : jsstring) :
  Convert.hexToUint8 (c1 :: c2 :: rest)
  = match Convert.tryParseByte c1 c2 with
    | Some b => bytes <- Convert.hexToUint8 rest ;; Ok (b :: bytes)
    | None => Throw Convert.InvalidKeyFormat
    end.
Proof. reflexivity. Qed.

Lemma isHexString_pair (c1 c2 : N) (rest : jsstring) :
  Convert.isHexString (c1 :: c2 :: rest)
  = match Convert.tryParseByte c1 c2 with
    | Some _ => Convert.isHexString rest
    | None => false
    end.
Proof. reflexivity. Qed.

(** Parsing the hex text of a byte sequence gives the sequence back. *)
Lemma hexToUint8_uint8ToHex (bytes : Uint8Array) :
  Convert.hexToUint8 (Convert.uint8ToHex bytes) = Ok bytes.
Proof.
  induction bytes as [|b bytes IH]; [reflexivity|].
  rewrite uint8ToHex_cons, hexToUint8_pair, tryParseByte_digits, IH.
  reflexivity.
Qed.

(** The hex text of a byte sequence is always a valid hex string. *)
Lemma isHexString_uint8ToHex (bytes : Uint8Array) :
  Convert.isHexString (Convert.uint8ToHex bytes) = true.
Proof.
  induction bytes as [|b bytes IH]; [reflexivity|].
  now rewrite uint8ToHex_cons, isHexString_pair, tryParseByte_digits.
Qed.

Lemma uint8ToHex_app (a b : Uint8Array) :
  Convert.uint8ToHex (a ++ b) = Convert.uint8ToHex a ++ Convert.uint8ToHex b.
Proof. unfold Convert.uint8ToHex. apply flat_map_app. Qed.

Lemma hexToUint8_app (a : jsstring) :
  forall x, Convert.hexToUint8 a = Ok x ->
  forall b, Convert.hexToUint8 (a ++ b)
            = (y <- Convert.hexToUint8 b ;; Ok (x ++ y)).
Proof.
  induction a as [| c | c1 c2 rest IH] using pairs_ind; intros x Hx b.
  - injection Hx as <-. simpl. now destruct (Convert.hexToUint8 b).
  - discriminate.
  - rewrite hexToUint8_pair in Hx.
    change ((c1 :: c2 :: rest) ++ b) with (c1 :: c2 :: (rest ++ b)).
    rewrite hexToUint8_pair.
    destruct (Convert.tryParseByte c1 c2) as [b0|]; [|discriminate].
    bind_inv Hx. injection Hx as <-.
    rewrite (IH _ Hm b).
    now destruct (Convert.hexToUint8 b).
Qed.

Lemma hexToUint8_length (s : jsstring) :
  forall bytes, Convert.hexToUint8 s = Ok bytes ->
  List.length s = (2 * List.length bytes)%nat.
Proof.
  induction s as [| c | c1 c2 rest IH] using pairs_ind; intros bytes H.
  - now injection H as <-.
  - discriminate.
  - rewrite hexToUint8_pair in H.
    destruct (Convert.tryParseByte c1 c2); [|discriminate].
    bind_inv H. injection H as <-.
    simpl. rewrite (IH _ Hm). lia.
Qed.

Lemma isHexString_parses (s : jsstring) :
  Convert.isHexString s = true -> exists bytes, Convert.hexToUint8 s = Ok bytes.
Proof.
  induction s as [| c | c1 c2 rest IH] using pairs_ind; intros H.
  - now exists [].
  - discriminate.
  - rewrite isHexString_pair in H. rewrite hexToUint8_pair.
    destruct (Convert.tryParseByte c1 c2) as [b|]; [|discriminate].
    destruct (IH H) as [bytes ->]. now exists (b :: bytes).
Qed.

(** The envelope text starts with the two characters "01": they parse to the
    marker byte, the rest parses on its own. *)
Lemma hexToUint8_marker (s : jsstring) (envelope : Uint8Array) :
  Convert.hexToUint8 (str "01" ++ s) = Ok envelope ->
  exists payload, envelope = x01 :: payload /\ Convert.hexToUint8 s = Ok payload.
Proof.
  change (str "01" ++ s) with (48 :: 49 :: s).
  rewrite hexToUint8_pair.
  change (Convert.tryParseByte 48 49) with (Some x01).
  intros H. bind_inv H. injection H as <-. eauto.
Qed.

(** ** Text recovered from bytes *)

Lemma utf8ArrayToString_from (bytes : Uint8Array) :
  forall prefix,
    fold_left (fun string b => string ++ [Byte.to_N b]) bytes prefix
    = prefix ++ map Byte.to_N bytes.
Proof.
  induction bytes as [|b bytes IH]; intros prefix; simpl.
  - now rewrite app_nil_r.
  - rewrite IH, <- app_assoc. reflexivity.
Qed.

(** The loop of [utf8ArrayToString] yields one code unit per byte, the value
    of that byte. *)
Lemma utf8ArrayToString_map (bytes : Uint8Array) :
  utf8ArrayToString bytes = map Byte.to_N bytes.
Proof. unfold utf8ArrayToString. now rewrite utf8ArrayToString_from. Qed.

(** Whatever the bytes, the recovered text has no code unit above 255. *)
Lemma utf8ArrayToString_bounded (bytes : Uint8Array) :
  Forall (fun c => c <= 255) (utf8ArrayToString bytes).
Proof.
  rewrite utf8ArrayToString_map. apply Forall_map, Forall_forall.
  intros b _. apply Byte.to_N_bounded.
Qed.

Lemma to_N_byte_of_N (n : N) : n < 256 -> Byte.to_N (byte_of_N n) = n.
Proof.
  intros Hn. unfold byte_of_N. rewrite N.mod_small by exact Hn.
  destruct (Byte.of_N n) as [b|] eqn:E.
  - now apply Byte.to_of_N.
  - apply Byte.of_N_None_iff in E. lia.
Qed.

Lemma codePoints_seven_bit (text : jsstring) :
  forallb (fun c => c <? 128) text = true -> Convert.codePoints text = text.
Proof.
  induction text as [|c text IH]; [reflexivity|].
  simpl. intros H. apply andb_true_iff in H as [Hc Htext].
  apply N.ltb_lt in Hc.
  replace (55296 <=? c) with false by (symmetry; apply N.leb_gt; lia).
  replace (56320 <=? c) with false by (symmetry; apply N.leb_gt; lia).
  simpl. now rewrite IH.
Qed.

(** Text of 7-bit characters is encoded one byte per character. *)
Lemma utf8ToUint8_seven_bit (text : jsstring) :
  forallb (fun c => c <? 128) text = true ->
  Convert.utf8ToUint8 text = map byte_of_N text.
Proof.
  intros H. unfold Convert.utf8ToUint8. rewrite (codePoints_seven_bit _ H).
  f_equal.
  induction text as [|c text IH]; [reflexivity|].
  simpl in H. apply andb_true_iff in H as [Hc Htext].
  simpl. unfold Convert.utf8EncodeCodePoint at 1.
  change (c <? 128) with ((fun c => c <? 128) c). simpl.
  rewrite Hc. simpl. now rewrite IH.
Qed.

Lemma asText_messageBytes (message : BytesOrString) :
  sevenBit message = true ->
  utf8ArrayToString (messageBytes message) = asText message.
Proof.
  destruct message as [bytes|text]; [reflexivity|].
  simpl. intros H.
  rewrite (utf8ToUint8_seven_bit _ H), utf8ArrayToString_map, map_map.
  rewrite <- (map_id text) at 2.
  apply map_ext_in.
  intros c Hin. apply to_N_byte_of_N.
  rewrite forallb_forall in H. specialize (H c Hin). apply N.ltb_lt in H. lia.
Qed.

(** *** Text with a character above 127 does not survive *)

Lemma codePoints_cons (c : N) (rest : jsstring) :
  Convert.codePoints (c :: rest)
  = if (0xD800 <=? c) && (c <=? 0xDBFF) then
      match rest with
      | d :: rest' =>
          if (0xDC00 <=? d) && (d <=? 0xDFFF)
          then (0x10000 + (c - 0xD800) * 1024 + (d - 0xDC00))
                 :: Convert.codePoints rest'
          else 0xFFFD :: Convert.codePoints rest
      | [] => [0xFFFD]
      end
    else if (0xDC00 <=? c) && (c <=? 0xDFFF)
         then 0xFFFD :: Convert.codePoints rest
         else c :: Convert.codePoints rest.
Proof. reflexivity. Qed.

Lemma utf8EncodeCodePoint_length (cp : N) :
  (1 <= List.length (Convert.utf8EncodeCodePoint cp))%nat /\
  (128 <= cp -> (2 <= List.length (Convert.utf8EncodeCodePoint cp))%nat) /\
  (65536 <= cp -> List.length (Convert.utf8EncodeCodePoint cp) = 4%nat).
Proof.
  unfold Convert.utf8EncodeCodePoint.
  destruct (cp <? 128) eqn:E1; [apply N.ltb_lt in E1 | apply N.ltb_ge in E1];
  destruct (cp <? 2048) eqn:E2; [apply N.ltb_lt in E2 | apply N.ltb_ge in E2
                                |apply N.ltb_lt in E2 | apply N.ltb_ge in E2];
  destruct (cp <? 65536) eqn:E3; [apply N.ltb_lt in E3 | apply N.ltb_ge in E3
                                 |apply N.ltb_lt in E3 | apply N.ltb_ge in E3
                                 |apply N.ltb_lt in E3 | apply N.ltb_ge in E3
                                 |apply N.ltb_lt in E3 | apply N.ltb_ge in E3];
  simpl List.length; repeat split; intros; lia.
Qed.

(** The encoding is never shorter than the text, and as long only for text of
    7-bit characters. *)
Lemma utf8_length (n : nat) :
  forall text, (List.length text <= n)%nat ->
    let encoded := flat_map Convert.utf8EncodeCodePoint (Convert.codePoints text) in
    (List.length text <= List.length encoded)%nat /\
    (List.length encoded = List.length text ->
     forallb (fun c => c <? 128) text = true).
Proof.
  induction n as [|n IH]; intros [|c rest] Hn; cbn zeta;
    try (simpl; split; [lia | reflexivity]); [simpl in Hn; lia|].
  simpl List.length in Hn.
  rewrite codePoints_cons.
  destruct ((0xD800 <=? c) && (c <=? 0xDBFF)) eqn:Hhi.
  - apply andb_true_iff in Hhi as [H1 H2].
    apply N.leb_le in H1. apply N.leb_le in H2.
    destruct rest as [|d rest'].
    + simpl. split; [lia | intros; lia].
    + destruct ((0xDC00 <=? d) && (d <=? 0xDFFF)) eqn:Hlo.
      * destruct (IH rest' ltac:(simpl in Hn; lia)) as [Hle _].
        cbn [flat_map]. rewrite length_app.
        destruct (utf8EncodeCodePoint_length
                    (0x10000 + (c - 0xD800) * 1024 + (d - 0xDC00)))
          as (_ & _ & H4).
        rewrite H4 by lia. simpl List.length. split; [lia | intros; lia].
      * destruct (IH (d :: rest') ltac:(lia)) as [Hle _].
        cbn [flat_map]. rewrite length_app.
        change (List.length (Convert.utf8EncodeCodePoint 0xFFFD)) with 3%nat.
        simpl List.length in *. split; [lia | intros; lia].
  - destruct (IH rest ltac:(lia)) as [Hle Heq].
    destruct ((0xDC00 <=? c) && (c <=? 0xDFFF)) eqn:Hlo.
    + cbn [flat_map]. rewrite length_app.
      change (List.length (Convert.utf8EncodeCodePoint 0xFFFD)) with 3%nat.
      simpl List.length. split; [lia | intros; lia].
    + cbn [flat_map]. rewrite length_app.
      destruct (utf8EncodeCodePoint_length c) as (H1 & H2 & _).
      simpl List.length. split; [lia|].
      intros Hlen. cbn [forallb].
      destruct (c <? 128) eqn:Hc.
      * apply Heq. lia.
      * apply N.ltb_ge in Hc. specialize (H2 Hc). lia.
Qed.

(** A text message is read back unchanged only if it is made of 7-bit
    characters. *)
Lemma asText_messageBytes_only (text : jsstring) :
  utf8ArrayToString (messageBytes (Str text)) = text ->
  sevenBit (Str text) = true.
Proof.
  intros H. apply (f_equal (@List.length N)) in H.
  rewrite utf8ArrayToString_map, length_map in H.
  unfold messageBytes, Convert.utf8ToUint8 in H. rewrite length_map in H.
  exact (proj2 (utf8_length (List.length text) text (le_n _)) H).
Qed.

(** ** The stand-in satisfies the AEAD interface *)

Lemma bytes_eqb_refl (a : Uint8Array) : bytes_eqb a a = true.
Proof.
  induction a as [|x a IH]; [reflexivity|].
  simpl. now rewrite IH, (Byte.byte_dec_lb (eq_refl x)).
Qed.

Lemma pad_length (n : nat) (a : Uint8Array) : List.length (pad n a) = n.
Proof.
  unfold pad. rewrite length_firstn, length_app, repeat_length. lia.
Qed.

Lemma demo_AeadCorrect (deriveSharedKey : SharedKeyDeriver) :
  AeadCorrect deriveSharedKey demoEncodeAesGcm demoDecodeAesGcm.
Proof.
  intros privateKey publicKey plain entropy enc payload Henc Hpayload.
  unfold demoEncodeAesGcm in Henc. bind_inv Henc. injection Henc as <-.
  simpl in Hpayload.
  rewrite <- !uint8ToHex_app, hexToUint8_uint8ToHex in Hpayload.
  injection Hpayload as <-.
  unfold demoDecodeAesGcm. rewrite Hm. cbn [bind].
  assert (Htag : List.length (demoTag a) = 16%nat) by apply pad_length.
  assert (Hiv : List.length (pad 12 entropy) = 12%nat) by apply pad_length.
  replace (List.length (demoTag a ++ pad 12 entropy ++ rev plain) <? 28)%nat
    with false
    by (symmetry; apply Nat.ltb_ge; rewrite !length_app; lia).
  rewrite firstn_app, Htag, Nat.sub_diag, firstn_O, app_nil_r.
  rewrite <- Htag at 1. rewrite firstn_all, bytes_eqb_refl.
  rewrite app_assoc, skipn_app.
  rewrite skipn_all2 by (rewrite length_app; lia).
  rewrite length_app, Htag, Hiv.
  change (28 - (16 + 12))%nat with 0%nat.
  rewrite skipn_O, app_nil_l. now rewrite rev_involutive.
Qed.

Lemma demo_AeadShape (deriveSharedKey : SharedKeyDeriver) :
  AeadShape 16 12 deriveSharedKey demoEncodeAesGcm.
Proof.
  intros privateKey publicKey plain entropy enc Henc.
  unfold demoEncodeAesGcm in Henc. bind_inv Henc. injection Henc as <-.
  unfold hexOfLength; simpl.
  rewrite !isHexString_uint8ToHex.
  rewrite !(hexToUint8_length _ _ (hexToUint8_uint8ToHex _)).
  unfold demoTag. rewrite !pad_length, length_rev. repeat split; lia.
Qed.

(** ** The encoder, for any key agreement and AEAD helpers *)

Lemma markerIsOne_spec (encodedMessage : Uint8Array) :
  markerIsOne encodedMessage = true <-> nth_error encodedMessage 0 = Some x01.
Proof.
  unfold markerIsOne. destruct (nth_error encodedMessage 0) as [b|]; split;
    intros H; try discriminate.
  - now apply Byte.byte_dec_bl in H as ->.
  - injection H as ->. reflexivity.
Qed.

Lemma markerIsOne_rebuild (encodedMessage : Uint8Array) :
  markerIsOne encodedMessage = true ->
  x01 :: subarray 1 encodedMessage = encodedMessage.
Proof.
  intros H. apply markerIsOne_spec in H.
  destruct encodedMessage as [|b rest]; [discriminate|].
  now injection H as ->.
Qed.

Lemma hexToUint8_concat (a b : jsstring) (x y : Uint8Array) :
  Convert.hexToUint8 a = Ok x -> Convert.hexToUint8 b = Ok y ->
  Convert.hexToUint8 (a ++ b) = Ok (x ++ y).
Proof. intros Ha Hb. now rewrite (hexToUint8_app _ _ Ha), Hb. Qed.

Section Properties.

Variable deriveSharedKey : SharedKeyDeriver.
Variable encodeAesGcm : AesGcmEncoder.
Variable decodeAesGcm : AesGcmDecoder.

(** [tryDecode] once its two arguments are raw bytes: the three ways out. *)
Lemma tryDecode_normalised this senderPublicKey encodedMessage key envelope :
  toUint8 senderPublicKey = Ok key ->
  toUint8 encodedMessage = Ok envelope ->
  tryDecode deriveSharedKey decodeAesGcm this senderPublicKey encodedMessage
  = if markerIsOne envelope then
      match decodeAesGcm deriveSharedKey (_privateKey this) key
              (subarray 1 envelope) with
      | Ok plain =>
          Ok {| isDecoded := true; message := Str (utf8ArrayToString plain) |}
      | Throw e =>
          if recognised e
          then Ok {| isDecoded := false; message := U8 envelope |}
          else Throw e
      end
    else Ok {| isDecoded := false; message := U8 envelope |}.
Proof.
  intros Hkey Henv. unfold tryDecode.
  rewrite Hkey, Henv. cbn [bind].
  destruct (markerIsOne envelope); [|reflexivity].
  unfold filterExceptions, recognised.
  destruct (decodeAesGcm _ _ _ _) as [plain|e]; [reflexivity|].
  cbn [existsb]. rewrite orb_false_r.
  now destruct (includes e AuthenticationFailure || includes e InvalidPoint).
Qed.

Lemma encode_Ok this recipientPublicKey message entropy envelope :
  encode deriveSharedKey encodeAesGcm this recipientPublicKey message entropy = Ok envelope ->
  exists key enc payload,
    toUint8 recipientPublicKey = Ok key /\
    encodeAesGcm deriveSharedKey (_privateKey this) key (messageBytes message)
      entropy = Ok enc /\
    Convert.hexToUint8 (tag enc ++ initializationVector enc ++ cipherText enc)
      = Ok payload /\
    envelope = x01 :: payload.
Proof.
  unfold encode. intros H.
  bind_inv H. rename a into key. bind_inv H. rename a into enc.
  apply hexToUint8_marker in H as (payload & -> & Hpayload).
  now exists key, enc, payload.
Qed.

(** What the deprecated encoder returns is what its call of [encode]
    returned. *)
Lemma encodeDeprecated_Ok this recipientPublicKey message entropy envelope :
  encodeDeprecated deriveSharedKey encodeAesGcm this recipientPublicKey message entropy = Ok envelope ->
  encode deriveSharedKey encodeAesGcm this recipientPublicKey message entropy = Ok envelope.
Proof.
  unfold encodeDeprecated. intros H.
  bind_inv H. rename a into encoded.
  rewrite hexToUint8_uint8ToHex in H. cbn [bind] in H. injection H as <-.
  destruct (encode_Ok _ _ _ _ _ Hm) as (key & enc & payload & _ & _ & _ & ->).
  exact Hm.
Qed.

Lemma tryDecodeDeprecated_normalised this senderPublicKey encodedMessage
    key envelope :
  toUint8 senderPublicKey = Ok key ->
  toUint8 encodedMessage = Ok envelope ->
  tryDecodeDeprecated deriveSharedKey decodeAesGcm this senderPublicKey encodedMessage
  = tryDecode deriveSharedKey decodeAesGcm this senderPublicKey encodedMessage.
Proof.
  intros Hkey Henv.
  rewrite (tryDecode_normalised this _ _ key envelope Hkey Henv).
  unfold tryDecodeDeprecated. rewrite Hkey, Henv. cbn [bind].
  rewrite isHexString_uint8ToHex, hexToUint8_uint8ToHex, andb_true_r.
  cbn [bind].
  destruct (markerIsOne envelope) eqn:Hmarker.
  - rewrite (markerIsOne_rebuild _ Hmarker).
    rewrite (tryDecode_normalised this (U8 key) (U8 envelope) key envelope
               eq_refl eq_refl).
    now rewrite Hmarker.
  - rewrite (tryDecode_normalised this (U8 key) (U8 envelope) key envelope
               eq_refl eq_refl).
    now rewrite Hmarker.
Qed.

(** The round trip through [encode] and [tryDecode] of one encoder and one
    public key: the text that comes back has one character per byte of the
    message as it was encrypted. *)
Lemma round_trip_bytes this publicKey message entropy envelope :
  AeadCorrect deriveSharedKey encodeAesGcm decodeAesGcm ->
  encode deriveSharedKey encodeAesGcm this publicKey message entropy = Ok envelope ->
  tryDecode deriveSharedKey decodeAesGcm this publicKey (U8 envelope)
  = Ok {| isDecoded := true;
          message := Str (utf8ArrayToString (messageBytes message)) |}.
Proof.
  intros Haead Henc.
  destruct (encode_Ok _ _ _ _ _ Henc)
    as (key & enc & payload & Hkey & Hprim & Hpayload & ->).
  rewrite (tryDecode_normalised this publicKey (U8 (x01 :: payload)) key
             (x01 :: payload) Hkey eq_refl).
  change (markerIsOne (x01 :: payload)) with true.
  change (subarray 1 (x01 :: payload)) with payload.
  now rewrite (Haead _ _ _ _ _ _ Hprim Hpayload).
Qed.

(** For a text message the round trip gives the text back exactly when the
    text is made of 7-bit characters. *)
Lemma round_trip_text_exact_iff this publicKey text entropy envelope :
  AeadCorrect deriveSharedKey encodeAesGcm decodeAesGcm ->
  encode deriveSharedKey encodeAesGcm this publicKey (Str text) entropy
    = Ok envelope ->
  tryDecode deriveSharedKey decodeAesGcm this publicKey (U8 envelope)
    = Ok {| isDecoded := true; message := Str text |}
  <-> sevenBit (Str text) = true.
Proof.
  intros Haead Henc. rewrite (round_trip_bytes _ _ _ _ _ Haead Henc). split.
  - intros H. injection H as H. now apply asText_messageBytes_only.
  - intros H. now rewrite (asText_messageBytes _ H).
Qed.

End Properties.

(** ** The stated properties *)

Section Claims.

Variable deriveSharedKey : SharedKeyDeriver.
Variable encodeAesGcm : AesGcmEncoder.
Variable decodeAesGcm : AesGcmDecoder.

(** C1, as amended: with a correct AEAD pair, decoding with the same encoder
    and the same public key the envelope that [encode] produced returns
    [isDecoded = true] carrying exactly the message, for every message given
    as raw bytes (read back one character per byte) and for every text
    message made of 7-bit characters. *)
Theorem round_trip_seven_bit this publicKey message entropy envelope :
  AeadCorrect deriveSharedKey encodeAesGcm decodeAesGcm ->
  sevenBit message = true ->
  encode deriveSharedKey encodeAesGcm this publicKey message entropy
    = Ok envelope ->
  tryDecode deriveSharedKey decodeAesGcm this publicKey (U8 envelope)
  = Ok {| isDecoded := true; message := Str (asText message) |}.
Proof.
  intros Haead Hseven Henc.
  rewrite (round_trip_bytes _ _ _ _ _ _ _ _ Haead Henc).
  now rewrite (asText_messageBytes _ Hseven).
Qed.

(** C2: the deprecated encoder returns, for the same inputs and the same
    random bytes, the very bytes [encode] returns (and fails where [encode]
    fails): the hex text of the payload is parsed back before it is
    stored. *)
Theorem encodeDeprecated_equals_encode this recipientPublicKey message entropy :
  encodeDeprecated deriveSharedKey encodeAesGcm this recipientPublicKey
    message entropy
  = encode deriveSharedKey encodeAesGcm this recipientPublicKey message entropy.
Proof.
  unfold encodeDeprecated.
  destruct (encode _ _ _ _ _ _) as [encoded|e] eqn:Henc; [|reflexivity].
  destruct (encode_Ok _ _ _ _ _ _ _ Henc) as (key & enc & payload & _ & _ & _ & ->).
  cbn [bind]. now rewrite hexToUint8_uint8ToHex.
Qed.

(** C3: for an envelope whose first byte is 1, a failure of [decodeAesGcm]
    whose message includes "Unsupported state or unable to authenticate
    data" or "invalid point" becomes the outcome [isDecoded = false] with the
    envelope as message; a failure with any other message is thrown again
    as it is. *)
Theorem tryDecode_failure_classes this senderPublicKey encodedMessage
    key envelope e :
  toUint8 senderPublicKey = Ok key ->
  toUint8 encodedMessage = Ok envelope ->
  nth_error envelope 0 = Some x01 ->
  decodeAesGcm deriveSharedKey (_privateKey this) key (subarray 1 envelope)
    = Throw e ->
  tryDecode deriveSharedKey decodeAesGcm this senderPublicKey encodedMessage
  = if includes e (str "Unsupported state or unable to authenticate data")
       || includes e (str "invalid point")
    then Ok {| isDecoded := false; message := U8 envelope |}
    else Throw e.
Proof.
  intros Hkey Henv Hmarker Hfail.
  rewrite (tryDecode_normalised _ _ _ _ _ _ _ Hkey Henv), Hfail.
  apply markerIsOne_spec in Hmarker. now rewrite Hmarker.
Qed.

(** C4, as amended: with a correct AEAD pair, [tryDecodeDeprecated] applied
    (same encoder, same public key) to the envelope that [encodeDeprecated]
    produced returns [isDecoded = true] carrying exactly the message, for
    every message given as raw bytes (read back one character per byte) and
    for every text message made of 7-bit characters. *)
Theorem legacy_round_trip_seven_bit this publicKey message entropy envelope :
  AeadCorrect deriveSharedKey encodeAesGcm decodeAesGcm ->
  sevenBit message = true ->
  encodeDeprecated deriveSharedKey encodeAesGcm this publicKey message entropy
    = Ok envelope ->
  tryDecodeDeprecated deriveSharedKey decodeAesGcm this publicKey (U8 envelope)
  = Ok {| isDecoded := true; message := Str (asText message) |}.
Proof.
  intros Haead Hseven Henc. apply encodeDeprecated_Ok in Henc.
  destruct (encode_Ok _ _ _ _ _ _ _ Henc) as (key & _ & _ & Hkey & _).
  rewrite (tryDecodeDeprecated_normalised _ _ this publicKey (U8 envelope) key
             envelope Hkey eq_refl).
  rewrite (round_trip_bytes _ _ _ _ _ _ _ _ Haead Henc).
  now rewrite (asText_messageBytes _ Hseven).
Qed.

(** C5: when the sender key is well formed and the envelope (raw bytes, or
    hex text that parses to these bytes) does not start with byte 1,
    [tryDecode] returns [isDecoded = false] with the bytes unchanged,
    whatever the key agreement and the AEAD helper are: neither is called. *)
Theorem tryDecode_foreign_marker this senderPublicKey encodedMessage
    key envelope :
  toUint8 senderPublicKey = Ok key ->
  toUint8 encodedMessage = Ok envelope ->
  nth_error envelope 0 <> Some x01 ->
  tryDecode deriveSharedKey decodeAesGcm this senderPublicKey encodedMessage
  = Ok {| isDecoded := false; message := U8 envelope |}.
Proof.
  intros Hkey Henv Hmarker.
  rewrite (tryDecode_normalised _ _ _ _ _ _ _ Hkey Henv).
  destruct (markerIsOne envelope) eqn:E; [|reflexivity].
  now apply markerIsOne_spec in E.
Qed.

(** C6: on successful decryption of an envelope whose first byte is 1,
    [tryDecode] returns as message the text that has one code unit per
    recovered byte, the value of that byte: same length, same values, none
    above 255. *)
Theorem tryDecode_widens_bytes this senderPublicKey encodedMessage
    key envelope plain :
  toUint8 senderPublicKey = Ok key ->
  toUint8 encodedMessage = Ok envelope ->
  nth_error envelope 0 = Some x01 ->
  decodeAesGcm deriveSharedKey (_privateKey this) key (subarray 1 envelope)
    = Ok plain ->
  exists text,
    tryDecode deriveSharedKey decodeAesGcm this senderPublicKey encodedMessage
    = Ok {| isDecoded := true; message := Str text |} /\
    List.length text = List.length plain /\
    forall i, nth_error text i = option_map Byte.to_N (nth_error plain i).
Proof.
  intros Hkey Henv Hmarker Hplain.
  exists (utf8ArrayToString plain). split; [|split].
  - rewrite (tryDecode_normalised _ _ _ _ _ _ _ Hkey Henv), Hplain.
    apply markerIsOne_spec in Hmarker. now rewrite Hmarker.
  - rewrite utf8ArrayToString_map. apply length_map.
  - intros i. rewrite utf8ArrayToString_map. apply nth_error_map.
Qed.

(** C7: [tryDecodeDeprecated] and [tryDecode] return the same outcome (or
    throw the same exception) on every sender key and every envelope. *)
Theorem tryDecodeDeprecated_equals_tryDecode this senderPublicKey
    encodedMessage :
  tryDecodeDeprecated deriveSharedKey decodeAesGcm this senderPublicKey
    encodedMessage
  = tryDecode deriveSharedKey decodeAesGcm this senderPublicKey encodedMessage.
Proof.
  destruct (toUint8 senderPublicKey) as [key|e] eqn:Hkey.
  - destruct (toUint8 encodedMessage) as [envelope|e] eqn:Henv.
    + exact (tryDecodeDeprecated_normalised _ _ _ _ _ _ _ Hkey Henv).
    + unfold tryDecodeDeprecated, tryDecode. now rewrite Hkey, Henv.
  - unfold tryDecodeDeprecated, tryDecode. now rewrite Hkey.
Qed.

(** C8: when the AEAD helper returns a tag of [tagLen] bytes, an
    initialization vector of [ivLen] bytes and a cipher text as long as the
    plaintext (each as hex text), [encode] returns an envelope of exactly
    [1 + tagLen + ivLen + n] bytes for a message of [n] bytes. *)
Theorem encode_length tagLen ivLen this recipientPublicKey message entropy
    key enc :
  AeadShape tagLen ivLen deriveSharedKey encodeAesGcm ->
  toUint8 recipientPublicKey = Ok key ->
  encodeAesGcm deriveSharedKey (_privateKey this) key (messageBytes message)
    entropy = Ok enc ->
  exists envelope,
    encode deriveSharedKey encodeAesGcm this recipientPublicKey message entropy
    = Ok envelope /\
    List.length envelope
    = (1 + tagLen + ivLen + List.length (messageBytes message))%nat.
Proof.
  intros Hshape Hkey Hprim.
  destruct (Hshape _ _ _ _ _ Hprim) as ((Ht & Lt) & (Hi & Li) & (Hc & Lc)).
  destruct (isHexString_parses _ Ht) as [t Pt].
  destruct (isHexString_parses _ Hi) as [i Pi].
  destruct (isHexString_parses _ Hc) as [c Pc].
  exists ([x01] ++ t ++ i ++ c). split.
  - unfold encode. rewrite Hkey. cbn [bind]. rewrite Hprim. cbn [bind].
    apply hexToUint8_concat; [reflexivity|].
    apply hexToUint8_concat; [exact Pt|].
    now apply hexToUint8_concat.
  - apply hexToUint8_length in Pt, Pi, Pc.
    rewrite !length_app. simpl List.length. lia.
Qed.

(** C9: whenever [encode] returns an envelope its first byte is 1, and
    whenever [encodeDeprecated] returns an envelope its first byte is 1. *)
Theorem encode_marker this recipientPublicKey message entropy envelope :
  (encode deriveSharedKey encodeAesGcm this recipientPublicKey message entropy
     = Ok envelope -> nth_error envelope 0 = Some x01) /\
  (encodeDeprecated deriveSharedKey encodeAesGcm this recipientPublicKey
     message entropy = Ok envelope -> nth_error envelope 0 = Some x01).
Proof.
  split.
  - intros H.
    now destruct (encode_Ok _ _ _ _ _ _ _ H) as (? & ? & ? & _ & _ & _ & ->).
  - unfold encodeDeprecated. intros H. bind_inv H. bind_inv H.
    now injection H as <-.
Qed.

(** C10: on the empty envelope (no bytes, or the empty hex text) and a well
    formed sender key, reading the marker finds nothing, and [tryDecode]
    returns [isDecoded = false] with the empty byte sequence, whatever the
    key agreement and the AEAD helper are: neither is called. *)
Theorem tryDecode_empty this senderPublicKey encodedMessage key :
  toUint8 senderPublicKey = Ok key ->
  toUint8 encodedMessage = Ok [] ->
  markerIsOne [] = false /\
  tryDecode deriveSharedKey decodeAesGcm this senderPublicKey encodedMessage
  = Ok {| isDecoded := false; message := U8 [] |}.
Proof.
  intros Hkey Henv. split; [reflexivity|].
  now rewrite (tryDecode_normalised _ _ _ _ _ _ _ Hkey Henv).
Qed.

End Claims.

(** ** The properties on concrete runs *)

Lemma round_trip_seven_bit_witness :
  exists envelope,
    encode demoDeriveSharedKey demoEncodeAesGcm alice (U8 bobPublicKey)
      (Str hello) [x07] = Ok envelope /\
    tryDecode demoDeriveSharedKey demoDecodeAesGcm alice (U8 bobPublicKey)
      (U8 envelope)
    = Ok {| isDecoded := true; message := Str hello |}.
Proof.
  eexists. split; [reflexivity|].
  apply (round_trip_seven_bit demoDeriveSharedKey demoEncodeAesGcm
           demoDecodeAesGcm alice (U8 bobPublicKey) (Str hello) [x07]).
  - apply demo_AeadCorrect.
  - reflexivity.
  - reflexivity.
Defined.

(** C1 as stated fails: the one-character text U+3042 comes back as the three
    characters 227, 129, 130, one per byte of its UTF-8 encoding. *)
Lemma round_trip_exact_fails : ~ RoundTripExact.
Proof.
  intros H.
  pose proof (H demoDeriveSharedKey demoEncodeAesGcm demoDecodeAesGcm
                (demo_AeadCorrect _) alice (U8 bobPublicKey) (Str [12354])
                [x07] _ eq_refl) as C.
  vm_compute in C. discriminate C.
Qed.

Lemma tryDecode_failure_classes_witness :
  tryDecode demoDeriveSharedKey demoDecodeAesGcm alice (U8 bobPublicKey)
    (U8 [x01; x02])
  = Ok {| isDecoded := false; message := U8 [x01; x02] |} /\
  tryDecode demoDeriveSharedKey demoDecodeAesGcm alice (U8 [])
    (Str (str "0102"))
  = Ok {| isDecoded := false; message := U8 [x01; x02] |} /\
  tryDecode brokenDeriveSharedKey demoDecodeAesGcm alice (U8 bobPublicKey)
    (U8 [x01; x02])
  = Throw OutOfMemory.
Proof.
  split; [|split].
  - exact (tryDecode_failure_classes demoDeriveSharedKey demoDecodeAesGcm alice
             (U8 bobPublicKey) (U8 [x01; x02]) bobPublicKey [x01; x02]
             AuthenticationFailure eq_refl eq_refl eq_refl eq_refl).
  - exact (tryDecode_failure_classes demoDeriveSharedKey demoDecodeAesGcm alice
             (U8 []) (Str (str "0102")) [] [x01; x02]
             InvalidPoint eq_refl eq_refl eq_refl eq_refl).
  - exact (tryDecode_failure_classes brokenDeriveSharedKey demoDecodeAesGcm alice
             (U8 bobPublicKey) (U8 [x01; x02]) bobPublicKey [x01; x02]
             OutOfMemory eq_refl eq_refl eq_refl eq_refl).
Defined.

Lemma legacy_round_trip_seven_bit_witness :
  exists envelope,
    encodeDeprecated demoDeriveSharedKey demoEncodeAesGcm alice
      (Str (str "B2B2B2B2")) (U8 [x68; x69]) [] = Ok envelope /\
    tryDecodeDeprecated demoDeriveSharedKey demoDecodeAesGcm alice
      (Str (str "B2B2B2B2")) (U8 envelope)
    = Ok {| isDecoded := true; message := Str (str "hi") |}.
Proof.
  eexists. split; [reflexivity|].
  apply (legacy_round_trip_seven_bit demoDeriveSharedKey demoEncodeAesGcm
           demoDecodeAesGcm alice (Str (str "B2B2B2B2")) (U8 [x68; x69]) []).
  - apply demo_AeadCorrect.
  - reflexivity.
  - reflexivity.
Defined.

(** C4 as stated fails, on the same text as C1. *)
Lemma legacy_round_trip_exact_fails : ~ LegacyRoundTripExact.
Proof.
  intros H.
  pose proof (H demoDeriveSharedKey demoEncodeAesGcm demoDecodeAesGcm
                (demo_AeadCorrect _) alice (U8 bobPublicKey) (Str [12354])
                [x07] _ eq_refl) as C.
  vm_compute in C. discriminate C.
Qed.

Lemma tryDecode_foreign_marker_witness :
  tryDecode brokenDeriveSharedKey brokenDecodeAesGcm alice (U8 bobPublicKey)
    (Str (str "00ff"))
  = Ok {| isDecoded := false; message := U8 [x00; xff] |}.
Proof.
  apply (tryDecode_foreign_marker brokenDeriveSharedKey brokenDecodeAesGcm alice
           (U8 bobPublicKey) (Str (str "00ff")) bobPublicKey [x00; xff]).
  - reflexivity.
  - reflexivity.
  - discriminate.
Defined.

Lemma tryDecode_widens_bytes_witness :
  exists text,
    tryDecode demoDeriveSharedKey demoDecodeAesGcm alice (U8 bobPublicKey)
      (U8 accentEnvelope)
    = Ok {| isDecoded := true; message := Str text |} /\
    List.length text = 2%nat /\
    forall i, nth_error text i = option_map Byte.to_N (nth_error [xc3; xa9] i).
Proof.
  apply (tryDecode_widens_bytes demoDeriveSharedKey demoDecodeAesGcm alice
           (U8 bobPublicKey) (U8 accentEnvelope) bobPublicKey accentEnvelope
           [xc3; xa9]); reflexivity.
Defined.

Lemma encode_length_witness :
  exists envelope,
    encode demoDeriveSharedKey demoEncodeAesGcm alice (U8 bobPublicKey)
      (Str hello) [x07] = Ok envelope /\
    List.length envelope = (1 + 16 + 12 + 5)%nat.
Proof.
  eapply (encode_length demoDeriveSharedKey demoEncodeAesGcm 16 12 alice
            (U8 bobPublicKey) (Str hello) [x07] bobPublicKey).
  - apply demo_AeadShape.
  - reflexivity.
  - reflexivity.
Defined.

Lemma encode_marker_witness :
  exists envelope envelope',
    encode demoDeriveSharedKey demoEncodeAesGcm alice (U8 bobPublicKey)
      (Str hello) [x07] = Ok envelope /\
    nth_error envelope 0 = Some x01 /\
    encodeDeprecated demoDeriveSharedKey demoEncodeAesGcm alice
      (U8 bobPublicKey) (Str hello) [x07] = Ok envelope' /\
    nth_error envelope' 0 = Some x01.
Proof.
  eexists. eexists.
  split; [reflexivity|]. split.
  - apply (proj1 (encode_marker demoDeriveSharedKey demoEncodeAesGcm alice
                    (U8 bobPublicKey) (Str hello) [x07] _)). reflexivity.
  - split; [reflexivity|].
    apply (proj2 (encode_marker demoDeriveSharedKey demoEncodeAesGcm alice
                    (U8 bobPublicKey) (Str hello) [x07] _)). reflexivity.
Defined.

Lemma tryDecode_empty_witness :
  tryDecode brokenDeriveSharedKey brokenDecodeAesGcm alice (U8 bobPublicKey)
    (U8 [])
  = Ok {| isDecoded := false; message := U8 [] |} /\
  tryDecode brokenDeriveSharedKey brokenDecodeAesGcm alice
    (Str (str "b2b2b2b2")) (Str [])
  = Ok {| isDecoded := false; message := U8 [] |}.
Proof.
  split.
  - apply (tryDecode_empty brokenDeriveSharedKey brokenDecodeAesGcm alice
             (U8 bobPublicKey) (U8 []) bobPublicKey); reflexivity.
  - apply (tryDecode_empty brokenDeriveSharedKey brokenDecodeAesGcm alice
             (Str (str "b2b2b2b2")) (Str []) bobPublicKey); reflexivity.
Defined.


(** * Further properties of the module *)

(** ** [String.prototype.includes] as a statement about texts *)

Lemma startsWith_app (search post : jsstring) :
  startsWith (search ++ post) search = true.
Proof.
  induction search as [|c search IH]; [now destruct post|].
  simpl. now rewrite N.eqb_refl, IH.
Qed.

Lemma startsWith_split (search : jsstring) :
  forall s, startsWith s search = true -> exists post, s = search ++ post.
Proof.
  induction search as [|c search IH]; intros s H.
  - now exists s.
  - destruct s as [|d s]; [discriminate|].
    simpl in H. apply andb_true_iff in H as [Hc Hs].
    apply N.eqb_eq in Hc as ->.
    destruct (IH _ Hs) as [post ->]. now exists post.
Qed.

Lemma includes_cons (c : N) (s search : jsstring) :
  includes (c :: s) search = startsWith (c :: s) search || includes s search.
Proof. reflexivity. Qed.

(** [includes] holds exactly when the searched text occurs somewhere. *)
Lemma includes_iff (s search : jsstring) :
  includes s search = true <-> exists pre post, s = pre ++ search ++ post.
Proof.
  split.
  - induction s as [|c s IH]; intros H.
    + change (includes [] search) with (startsWith [] search || false) in H.
      rewrite orb_false_r in H.
      destruct (startsWith_split _ _ H) as [post ->]. now exists [], post.
    + rewrite includes_cons in H. apply orb_true_iff in H as [H|H].
      * destruct (startsWith_split _ _ H) as [post ->]. now exists [], post.
      * destruct (IH H) as (pre & post & ->). now exists (c :: pre), post.
  - intros (pre & post & ->).
    induction pre as [|c pre IH].
    + simpl app. destruct (search ++ post) eqn:E.
      * apply app_eq_nil in E as [-> ->]. reflexivity.
      * rewrite includes_cons, <- E, startsWith_app. reflexivity.
    + simpl app. rewrite includes_cons, IH. apply orb_true_r.
Qed.

(** ** [filterExceptions] *)

(** X1: whatever the statement and the list of messages, when
    [filterExceptions] returns, its flag is [true] exactly when its second
    component is defined: either the statement returned that value, or the
    statement threw an exception whose message includes a listed text and the
    pair is [[false, undefined]]. *)
Theorem filterExceptions_flag_and_value (statement : unit -> result Uint8Array)
    (exceptions : list jsstring) (flag : bool) (value : option Uint8Array) :
  filterExceptions statement exceptions = Ok (flag, value) ->
  (flag = true /\ exists plain, value = Some plain /\ statement tt = Ok plain) \/
  (flag = false /\ value = None /\
   exists e x, statement tt = Throw e /\ In x exceptions /\ includes e x = true).
Proof.
  unfold filterExceptions.
  destruct (statement tt) as [plain|e].
  - intros H. injection H as <- <-. left. eauto.
  - destruct (existsb _ exceptions) eqn:Hex; [|discriminate].
    intros H. injection H as <- <-. right.
    apply existsb_exists in Hex as (x & Hin & Hx). eauto 7.
Qed.

(** X2: when the list of messages contains the empty text, every exception of
    the statement is caught, since every message includes the empty text. *)
Theorem filterExceptions_empty_text_catches_all
    (statement : unit -> result Uint8Array) (exceptions : list jsstring)
    (e : Error) :
  In [] exceptions ->
  statement tt = Throw e ->
  filterExceptions statement exceptions = Ok (false, None).
Proof.
  intros Hin Hthrow. unfold filterExceptions. rewrite Hthrow.
  replace (existsb _ exceptions) with true; [reflexivity|].
  symmetry. apply existsb_exists. exists []. split; [exact Hin|].
  apply includes_iff. now exists [], e.
Qed.

(** ** [utf8ArrayToString] *)

(** X11: the text of a byte sequence determines the sequence: two different
    byte sequences never give the same text. *)
Theorem utf8ArrayToString_injective (a b : Uint8Array) :
  utf8ArrayToString a = utf8ArrayToString b -> a = b.
Proof.
  rewrite !utf8ArrayToString_map. revert b.
  induction a as [|x a IH]; intros [|y b] H; try discriminate; [reflexivity|].
  simpl in H. injection H as Hxy Hab.
  f_equal; [|now apply IH].
  pose proof (Byte.of_to_N x) as Hx. rewrite Hxy, Byte.of_to_N in Hx.
  now injection Hx.
Qed.

(** X12: the text of a concatenation is the concatenation of the texts. *)
Theorem utf8ArrayToString_app (a b : Uint8Array) :
  utf8ArrayToString (a ++ b) = utf8ArrayToString a ++ utf8ArrayToString b.
Proof. rewrite !utf8ArrayToString_map. apply map_app. Qed.

(** ** [MessageEncoder], for any key agreement and AEAD helpers *)

Section Further.

Variable deriveSharedKey : SharedKeyDeriver.
Variable encodeAesGcm : AesGcmEncoder.
Variable decodeAesGcm : AesGcmDecoder.

(** X3: for an envelope whose first byte is 1 and a failure of [decodeAesGcm]
    with message [e], [tryDecode] returns the not-decoded outcome exactly when
    "Unsupported state or unable to authenticate data" or "invalid point"
    occurs somewhere inside [e], whatever stands before and after it. *)
Theorem tryDecode_swallows_iff_occurs this senderPublicKey encodedMessage
    key envelope e :
  toUint8 senderPublicKey = Ok key ->
  toUint8 encodedMessage = Ok envelope ->
  nth_error envelope 0 = Some x01 ->
  decodeAesGcm deriveSharedKey (_privateKey this) key (subarray 1 envelope)
    = Throw e ->
  tryDecode deriveSharedKey decodeAesGcm this senderPublicKey encodedMessage
    = Ok {| isDecoded := false; message := U8 envelope |}
  <-> exists pre post,
        e = pre ++ str "Unsupported state or unable to authenticate data" ++ post
        \/ e = pre ++ str "invalid point" ++ post.
Proof.
  intros Hkey Henv Hmarker Hfail.
  rewrite (tryDecode_normalised _ _ _ _ _ _ _ Hkey Henv), Hfail.
  apply markerIsOne_spec in Hmarker. rewrite Hmarker.
  unfold recognised.
  destruct (includes e AuthenticationFailure) eqn:Ha.
  - split; [intros _|reflexivity].
    apply includes_iff in Ha as (pre & post & ->). exists pre, post. now left.
  - destruct (includes e InvalidPoint) eqn:Hp.
    + split; [intros _|reflexivity].
      apply includes_iff in Hp as (pre & post & ->). exists pre, post. now right.
    + split; [discriminate|].
      intros (pre & post & [H|H]).
      * assert (includes e AuthenticationFailure = true)
          by (apply includes_iff; eauto). congruence.
      * assert (includes e InvalidPoint = true)
          by (apply includes_iff; eauto). congruence.
Qed.

(** X4: a sender key that fails to convert makes [tryDecode] and
    [tryDecodeDeprecated] throw that failure whatever the envelope is (also
    one that does not start with byte 1); with a good key, an envelope that
    fails to convert makes both throw its failure. *)
Theorem tryDecode_conversion_failure this senderPublicKey encodedMessage e :
  toUint8 senderPublicKey = Throw e \/
  (exists key, toUint8 senderPublicKey = Ok key /\
               toUint8 encodedMessage = Throw e) ->
  tryDecode deriveSharedKey decodeAesGcm this senderPublicKey encodedMessage
    = Throw e /\
  tryDecodeDeprecated deriveSharedKey decodeAesGcm this senderPublicKey
    encodedMessage = Throw e.
Proof.
  unfold tryDecode, tryDecodeDeprecated.
  intros [Hkey | (key & Hkey & Henv)].
  - now rewrite Hkey.
  - now rewrite Hkey, Henv.
Qed.


(** X6: every outcome [tryDecode] returns has one of two forms.  Decoded: the
    envelope starts with byte 1, [decodeAesGcm] returned for the bytes after
    the marker, and the message is the text of what it returned.  Not
    decoded: the message is the envelope bytes unchanged, and either the
    envelope does not start with byte 1 or [decodeAesGcm] threw. *)
Theorem tryDecode_outcome this senderPublicKey encodedMessage outcome :
  tryDecode deriveSharedKey decodeAesGcm this senderPublicKey encodedMessage
    = Ok outcome ->
  exists key envelope,
    toUint8 senderPublicKey = Ok key /\
    toUint8 encodedMessage = Ok envelope /\
    ((isDecoded outcome = true /\
      nth_error envelope 0 = Some x01 /\
      exists plain,
        decodeAesGcm deriveSharedKey (_privateKey this) key
          (subarray 1 envelope) = Ok plain /\
        message outcome = Str (utf8ArrayToString plain))
     \/
     (isDecoded outcome = false /\
      message outcome = U8 envelope /\
      (nth_error envelope 0 <> Some x01 \/
       exists e,
         decodeAesGcm deriveSharedKey (_privateKey this) key
           (subarray 1 envelope) = Throw e))).
Proof.
  destruct (toUint8 senderPublicKey) as [key|e1] eqn:Hkey;
    [|unfold tryDecode; rewrite Hkey; discriminate].
  destruct (toUint8 encodedMessage) as [envelope|e2] eqn:Henv;
    [|unfold tryDecode; rewrite Hkey, Henv; discriminate].
  rewrite (tryDecode_normalised _ _ _ _ _ _ _ Hkey Henv).
  intros H. exists key, envelope. split; [reflexivity|]. split; [reflexivity|].
  destruct (markerIsOne envelope) eqn:Hmarker.
  - apply markerIsOne_spec in Hmarker.
    destruct (decodeAesGcm _ _ _ _) as [plain|e'] eqn:Hdec.
    + injection H as <-. left. eauto.
    + destruct (recognised e'); [|discriminate].
      injection H as <-. right. eauto.
  - injection H as <-. right. repeat split. left.
    intros Hone. apply markerIsOne_spec in Hone. congruence.
Qed.

(** X7: [encode] and [encodeDeprecated] filter nothing: with a recipient key
    that converts, whatever exception [encodeAesGcm] throws (an "invalid
    point" one included) is thrown by both. *)
Theorem encode_failure_propagates this recipientPublicKey message entropy key e :
  toUint8 recipientPublicKey = Ok key ->
  encodeAesGcm deriveSharedKey (_privateKey this) key (messageBytes message)
    entropy = Throw e ->
  encode deriveSharedKey encodeAesGcm this recipientPublicKey message entropy
    = Throw e /\
  encodeDeprecated deriveSharedKey encodeAesGcm this recipientPublicKey message
    entropy = Throw e.
Proof.
  intros Hkey Hprim. unfold encodeDeprecated, encode.
  now rewrite Hkey; cbn [bind]; rewrite Hprim.
Qed.

(** X8: when the three hex texts [encodeAesGcm] returned stand for the bytes
    [t], [i] and [c], both [encode] and [encodeDeprecated] return the marker
    byte 1 followed by [t], then [i], then [c]. *)
Theorem envelope_layout this recipientPublicKey message entropy key enc t i c :
  toUint8 recipientPublicKey = Ok key ->
  encodeAesGcm deriveSharedKey (_privateKey this) key (messageBytes message)
    entropy = Ok enc ->
  Convert.hexToUint8 (tag enc) = Ok t ->
  Convert.hexToUint8 (initializationVector enc) = Ok i ->
  Convert.hexToUint8 (cipherText enc) = Ok c ->
  encode deriveSharedKey encodeAesGcm this recipientPublicKey message entropy
    = Ok (x01 :: t ++ i ++ c) /\
  encodeDeprecated deriveSharedKey encodeAesGcm this recipientPublicKey message
    entropy = Ok (x01 :: t ++ i ++ c).
Proof.
  intros Hkey Hprim Ht Hi Hc.
  assert (Henc : encode deriveSharedKey encodeAesGcm this recipientPublicKey
                   message entropy = Ok (x01 :: t ++ i ++ c)).
  { unfold encode. rewrite Hkey. cbn [bind]. rewrite Hprim. cbn [bind].
    apply (hexToUint8_concat (str "01") _ [x01]); [reflexivity|].
    apply hexToUint8_concat; [exact Ht|].
    now apply hexToUint8_concat. }
  split; [exact Henc|].
  unfold encodeDeprecated. rewrite Henc. cbn [bind].
  change (subarray 1 (x01 :: t ++ i ++ c)) with (t ++ i ++ c).
  now rewrite hexToUint8_uint8ToHex.
Qed.

(** X9: with a correct AEAD pair the standard and the deprecated methods mix
    freely: an envelope returned by [encode] or by [encodeDeprecated], for any
    message, is decoded by [tryDecode] and by [tryDecodeDeprecated] alike, to
    the text that has one character per byte of the encrypted message. *)
Theorem round_trip_mixed this publicKey message entropy envelope :
  AeadCorrect deriveSharedKey encodeAesGcm decodeAesGcm ->
  encode deriveSharedKey encodeAesGcm this publicKey message entropy
    = Ok envelope \/
  encodeDeprecated deriveSharedKey encodeAesGcm this publicKey message entropy
    = Ok envelope ->
  tryDecode deriveSharedKey decodeAesGcm this publicKey (U8 envelope)
    = Ok {| isDecoded := true;
            message := Str (utf8ArrayToString (messageBytes message)) |} /\
  tryDecodeDeprecated deriveSharedKey decodeAesGcm this publicKey (U8 envelope)
    = Ok {| isDecoded := true;
            message := Str (utf8ArrayToString (messageBytes message)) |}.
Proof.
  intros Haead H.
  assert (Henc : encode deriveSharedKey encodeAesGcm this publicKey message
                   entropy = Ok envelope).
  { destruct H as [H|H]; [exact H | now apply encodeDeprecated_Ok]. }
  pose proof (round_trip_bytes _ _ _ _ _ _ _ _ Haead Henc) as Hrt.
  split; [exact Hrt|].
  destruct (encode_Ok _ _ _ _ _ _ _ Henc) as (key & _ & _ & Hkey & _).
  now rewrite (tryDecodeDeprecated_normalised _ _ this publicKey (U8 envelope)
                 key envelope Hkey eq_refl).
Qed.

(** X10: with a correct AEAD pair, the round trip of a text message returns a
    text that is never shorter than the message, and that is the message
    itself exactly when the message is made of 7-bit characters. *)
Theorem round_trip_text this publicKey text entropy envelope :
  AeadCorrect deriveSharedKey encodeAesGcm decodeAesGcm ->
  encode deriveSharedKey encodeAesGcm this publicKey (Str text) entropy
    = Ok envelope ->
  exists text',
    tryDecode deriveSharedKey decodeAesGcm this publicKey (U8 envelope)
      = Ok {| isDecoded := true; message := Str text' |} /\
    (List.length text <= List.length text')%nat /\
    (text' = text <-> forallb (fun c => c <? 128) text = true).
Proof.
  intros Haead Henc.
  exists (utf8ArrayToString (messageBytes (Str text))).
  split; [exact (round_trip_bytes _ _ _ _ _ _ _ _ Haead Henc)|]. split.
  - rewrite utf8ArrayToString_map, length_map.
    unfold messageBytes, Convert.utf8ToUint8. rewrite length_map.
    exact (proj1 (utf8_length (List.length text) text (le_n _))).
  - split.
    + apply asText_messageBytes_only.
    + intros H. exact (asText_messageBytes (Str text) H).
Qed.

(** X13: arguments given as the hex text of bytes and arguments given as
    those bytes are interchangeable, in [tryDecode], [tryDecodeDeprecated]
    and [encode]. *)
Theorem hex_text_arguments this key envelope message entropy :
  tryDecode deriveSharedKey decodeAesGcm this
    (Str (Convert.uint8ToHex key)) (Str (Convert.uint8ToHex envelope))
  = tryDecode deriveSharedKey decodeAesGcm this (U8 key) (U8 envelope) /\
  tryDecodeDeprecated deriveSharedKey decodeAesGcm this
    (Str (Convert.uint8ToHex key)) (Str (Convert.uint8ToHex envelope))
  = tryDecodeDeprecated deriveSharedKey decodeAesGcm this (U8 key) (U8 envelope) /\
  encode deriveSharedKey encodeAesGcm this (Str (Convert.uint8ToHex key))
    message entropy
  = encode deriveSharedKey encodeAesGcm this (U8 key) message entropy.
Proof.
  unfold tryDecode, tryDecodeDeprecated, encode, toUint8.
  now rewrite !hexToUint8_uint8ToHex.
Qed.

End Further.

Lemma hexToUint8_Ok_isHexString (s : jsstring) :
  forall bytes, Convert.hexToUint8 s = Ok bytes -> Convert.isHexString s = true.
Proof.
  induction s as [| c | c1 c2 rest IH] using pairs_ind; intros bytes H.
  - reflexivity.
  - discriminate.
  - rewrite hexToUint8_pair in H. rewrite isHexString_pair.
    destruct (Convert.tryParseByte c1 c2); [|discriminate].
    bind_inv H. eauto.
Qed.

(** X14: constructing an encoder from a text succeeds exactly when the text is
    a valid hex string, and the encoder then holds one key byte per two
    characters; constructing it from the hex text of a byte sequence gives the
    encoder constructed from the bytes. *)
Theorem newMessageEncoder_from_text (text : jsstring) (bytes : Uint8Array) :
  ((exists this, newMessageEncoder (Str text) = Ok this /\
                 List.length text = (2 * List.length (_privateKey this))%nat)
   <-> Convert.isHexString text = true) /\
  newMessageEncoder (Str (Convert.uint8ToHex bytes)) = newMessageEncoder (U8 bytes).
Proof.
  unfold newMessageEncoder, toUint8. split; [split|].
  - intros (this & H & _). bind_inv H.
    exact (hexToUint8_Ok_isHexString _ _ Hm).
  - intros H. destruct (isHexString_parses _ H) as [key Hkey].
    exists {| _privateKey := key |}. rewrite Hkey. split; [reflexivity|].
    exact (hexToUint8_length _ _ Hkey).
  - now rewrite hexToUint8_uint8ToHex.
Qed.

(** ** The further properties on concrete runs *)

Lemma filterExceptions_flag_and_value_witness :
  (false = true /\
   exists plain, None = Some plain /\
     demoDeriveSharedKey [xa1] [] = Ok plain) \/
  (false = false /\ @None Uint8Array = None /\
   exists e x, demoDeriveSharedKey [xa1] [] = Throw e /\
     In x [InvalidPoint] /\ includes e x = true).
Proof.
  apply (filterExceptions_flag_and_value
           (fun _ => demoDeriveSharedKey [xa1] []) [InvalidPoint] false None).
  reflexivity.
Defined.

Lemma filterExceptions_empty_text_catches_all_witness :
  filterExceptions (fun _ => brokenDeriveSharedKey [] []) [InvalidPoint; []]
  = Ok (false, None).
Proof.
  apply (filterExceptions_empty_text_catches_all
           (fun _ => brokenDeriveSharedKey [] []) [InvalidPoint; []] OutOfMemory).
  - simpl. auto.
  - reflexivity.
Defined.

Lemma tryDecode_swallows_iff_occurs_witness :
  tryDecode demoDeriveSharedKey demoDecodeAesGcm alice (U8 []) (U8 [x01; x02])
    = Ok {| isDecoded := false; message := U8 [x01; x02] |}
  <-> exists pre post,
        InvalidPoint
        = pre ++ str "Unsupported state or unable to authenticate data" ++ post
        \/ InvalidPoint = pre ++ str "invalid point" ++ post.
Proof.
  apply (tryDecode_swallows_iff_occurs demoDeriveSharedKey demoDecodeAesGcm alice
           (U8 []) (U8 [x01; x02]) [] [x01; x02] InvalidPoint); reflexivity.
Defined.

Lemma tryDecode_conversion_failure_witness :
  tryDecode demoDeriveSharedKey demoDecodeAesGcm alice (Str (str "b2b"))
    (U8 [x00; x02]) = Throw Convert.InvalidKeyFormat /\
  tryDecodeDeprecated demoDeriveSharedKey demoDecodeAesGcm alice
    (Str (str "b2b")) (U8 [x00; x02]) = Throw Convert.InvalidKeyFormat.
Proof.
  apply (tryDecode_conversion_failure demoDeriveSharedKey demoDecodeAesGcm alice
           (Str (str "b2b")) (U8 [x00; x02]) Convert.InvalidKeyFormat).
  left. reflexivity.
Defined.


Lemma tryDecode_outcome_witness :
  exists key envelope,
    toUint8 (U8 bobPublicKey) = Ok key /\
    toUint8 (U8 accentEnvelope) = Ok envelope /\
    ((true = true /\
      nth_error envelope 0 = Some x01 /\
      exists plain,
        demoDecodeAesGcm demoDeriveSharedKey (_privateKey alice) key
          (subarray 1 envelope) = Ok plain /\
        Str [195; 169] = Str (utf8ArrayToString plain))
     \/
     (true = false /\
      Str [195; 169] = U8 envelope /\
      (nth_error envelope 0 <> Some x01 \/
       exists e,
         demoDecodeAesGcm demoDeriveSharedKey (_privateKey alice) key
           (subarray 1 envelope) = Throw e))).
Proof.
  apply (tryDecode_outcome demoDeriveSharedKey demoDecodeAesGcm alice
           (U8 bobPublicKey) (U8 accentEnvelope)
           {| isDecoded := true; message := Str [195; 169] |}).
  reflexivity.
Defined.

Lemma encode_failure_propagates_witness :
  encode demoDeriveSharedKey demoEncodeAesGcm alice (U8 []) (Str hello) [x07]
    = Throw InvalidPoint /\
  encodeDeprecated demoDeriveSharedKey demoEncodeAesGcm alice (U8 [])
    (Str hello) [x07] = Throw InvalidPoint.
Proof.
  apply (encode_failure_propagates demoDeriveSharedKey demoEncodeAesGcm alice
           (U8 []) (Str hello) [x07] [] InvalidPoint); reflexivity.
Defined.

Lemma envelope_layout_witness :
  encode demoDeriveSharedKey demoEncodeAesGcm alice (U8 bobPublicKey)
    (U8 [x68; x69]) [x07]
    = Ok (x01 :: demoTag (_privateKey alice ++ bobPublicKey) ++ pad 12 [x07]
              ++ [x69; x68]) /\
  encodeDeprecated demoDeriveSharedKey demoEncodeAesGcm alice (U8 bobPublicKey)
    (U8 [x68; x69]) [x07]
    = Ok (x01 :: demoTag (_privateKey alice ++ bobPublicKey) ++ pad 12 [x07]
              ++ [x69; x68]).
Proof.
  apply (envelope_layout demoDeriveSharedKey demoEncodeAesGcm alice
           (U8 bobPublicKey) (U8 [x68; x69]) [x07] bobPublicKey
           {| tag := Convert.uint8ToHex (demoTag (_privateKey alice ++ bobPublicKey));
              initializationVector := Convert.uint8ToHex (pad 12 [x07]);
              cipherText := Convert.uint8ToHex [x69; x68] |});
    reflexivity.
Defined.

Lemma round_trip_mixed_witness :
  exists envelope,
    encodeDeprecated demoDeriveSharedKey demoEncodeAesGcm alice
      (U8 bobPublicKey) (Str [233]) [x07] = Ok envelope /\
    tryDecode demoDeriveSharedKey demoDecodeAesGcm alice (U8 bobPublicKey)
      (U8 envelope)
    = Ok {| isDecoded := true; message := Str [195; 169] |} /\
    tryDecodeDeprecated demoDeriveSharedKey demoDecodeAesGcm alice
      (U8 bobPublicKey) (U8 envelope)
    = Ok {| isDecoded := true; message := Str [195; 169] |}.
Proof.
  eexists. split; [reflexivity|].
  apply (round_trip_mixed demoDeriveSharedKey demoEncodeAesGcm demoDecodeAesGcm
           alice (U8 bobPublicKey) (Str [233]) [x07]).
  - apply demo_AeadCorrect.
  - right. reflexivity.
Defined.

Lemma round_trip_text_witness :
  exists envelope,
    encode demoDeriveSharedKey demoEncodeAesGcm alice (U8 bobPublicKey)
      (Str [233]) [x07] = Ok envelope /\
    exists text',
      tryDecode demoDeriveSharedKey demoDecodeAesGcm alice (U8 bobPublicKey)
        (U8 envelope)
      = Ok {| isDecoded := true; message := Str text' |} /\
      (1 <= List.length text')%nat /\
      (text' = [233] <-> forallb (fun c => c <? 128) [233] = true).
Proof.
  eexists. split; [reflexivity|].
  apply (round_trip_text demoDeriveSharedKey demoEncodeAesGcm demoDecodeAesGcm
           alice (U8 bobPublicKey) [233] [x07]).
  - apply demo_AeadCorrect.
  - reflexivity.
Defined.

Lemma utf8ArrayToString_injective_witness : [xc3; xa9] = [xc3; xa9].
Proof.
  apply (utf8ArrayToString_injective [xc3; xa9] [xc3; xa9]). reflexivity.
Defined.
